(** * Cythoner: the Python-to-Cython text generator

    A shallow embedding of [src/__init__.py]: the operator table, the
    rendering methods of [Generator] ([parse_atom], [parse_stmt],
    [parse_body], [parse_expr], [parse_args]) and the constructor
    [Generator.__init__] with the file reads and the file write it performs.

    Python is dynamically typed and the generator dispatches on the run-time
    class of a node and on the presence of attributes, so the syntax tree is
    one type [ast.node] covering every class the generator can meet; reading
    an attribute that a class does not have raises [AttributeError], a missing
    dictionary key raises [KeyError], and so on, through the result type
    [res].  The embedding follows CPython 3.10 to 3.13, where [str] of a
    syntax node is the default object representation
    [<ast.Name object at 0x...>], the address in lower-case hexadecimal; the
    address of a node is part of the node, and [str] of an integer raises
    [ValueError] above the default limit of 4300 digits.  Outside the
    embedding are the recursion limit and the exhaustion of memory, and
    files that are not regular files the process may read and write. *)

From Stdlib Require Import String Ascii ZArith List Lia.
From Stdlib.Strings Require Import Byte.
From Stdlib Require DecimalString HexadecimalString HexadecimalN HexadecimalPos.
From stdpp Require Import base option gmap strings.

Open Scope string_scope.

#[local] Set Warnings "-register-all".

(** ** Exceptions and results *)

Inductive exn : Set :=
| AttributeError
| KeyError
| IndexError
| TypeError
| ValueError
| FileNotFoundError
| UnicodeDecodeError
| UnicodeEncodeError
| SyntaxError.

Inductive res (A : Type) : Type :=
| Ok (a : A)
| Err (e : exn).

Arguments Ok {A} a.
Arguments Err {A} e.

Definition bind {A B : Type} (m : res A) (k : A -> res B) : res B :=
  match m with
  | Ok a => k a
  | Err e => Err e
  end.

Declare Scope res_scope.
Delimit Scope res_scope with res.
Notation "x <- m ;; k" := (bind m (fun x => k))
  (at level 100, m at next level, right associativity) : res_scope.
Open Scope res_scope.

(** [map] over a list, left to right, stopping at the first exception. *)
Definition mapM {A B : Type} (f : A -> res B) : list A -> res (list B) :=
  fix go (l : list A) : res (list B) :=
    match l with
    | [] => Ok []
    | x :: l' => y <- f x ;; ys <- go l' ;; Ok (y :: ys)
    end.

(** ** Strings *)

Definition nl : string := String (ascii_of_nat 10) EmptyString.

(** [sep.join(l)] *)
Fixpoint join (sep : string) (l : list string) : string :=
  match l with
  | [] => EmptyString
  | [s] => s
  | s :: l' => s ++ sep ++ join sep l'
  end.

(** [s * n] *)
Fixpoint str_mul (s : string) (n : nat) : string :=
  match n with
  | O => EmptyString
  | S n' => s ++ str_mul s n'
  end.

(** [space(n)]: a string of [n] spaces. *)
Definition space (n : nat) : string := str_mul " " n.

(** ** The syntax tree *)

Module ast.

(** The operator classes: the thirteen binary operators and the ten
    comparison operators of the language. *)
Inductive op_class : Set :=
| Add | Sub | Mult | MatMult | Div | Pow | Mod | LShift | RShift
| BitOr | BitXor | BitAnd | FloorDiv
| Eq | NotEq | Lt | LtE | Gt | GtE | Is | IsNot | In | NotIn.

(** The value of a constant node.  Floats, complex numbers and bytes are
    carried with the text that [str] gives them. *)
Inductive constant : Set :=
| c_str (s : string)
| c_int (z : Z)
| c_bool (b : bool)
| c_None
| c_Ellipsis
| c_other (text : string).

(** A node, with its address where the class is an object, its column
    offset where the generator reads one, and the fields the generator
    reads.  [None_] is the [None] found in an optional field.  [Other] is
    a node of any class not listed that has none of the attributes [id],
    [func], [args], [annotation] and [name] (a subscript, a tuple, a unary
    operation, a while loop, ...); its last field is the [value] attribute
    when that class has one. *)
Inductive node : Type :=
| None_
| Name (addr : N) (id : string)
| Constant (addr : N) (value : constant)
| Call (addr : N) (func : node) (args : list node)
| Attribute (addr : N) (value : node) (attr : string)
| BinOp (addr : N) (left : node) (op : op_class) (right : node)
| Compare (addr : N) (left : node) (ops : list op_class) (comparators : list node)
| List (addr : N) (col_offset : nat) (elts : list node)
| Expr (addr : N) (col_offset : nat) (value : node)
| Pass (addr : N) (col_offset : nat)
| AnnAssign (addr : N) (col_offset : nat) (target annotation value : node)
| Assign (addr : N) (col_offset : nat) (targets : list node) (value : node)
| Return (addr : N) (col_offset : nat) (value : node)
| For (addr : N) (col_offset : nat) (target iter : node) (body : list node)
| AugAssign (addr : N) (col_offset : nat) (target : node) (op : op_class) (value : node)
| If (addr : N) (col_offset : nat) (test : node) (body : list node)
| Import (addr : N) (col_offset : nat) (names : list node)
| ImportFrom (addr : N) (col_offset : nat) (module : option string)
             (names : list node) (level : nat)
| Raise (addr : N) (col_offset : nat) (exc : node)
| FunctionDef (addr : N) (col_offset : nat) (name : string) (args : node)
              (body : list node) (decorator_list : list node) (returns : node)
| ClassDef (addr : N) (col_offset : nat) (name : string) (body : list node)
| alias (addr : N) (name : string)
| arguments (addr : N) (args : list node)
| arg (addr : N) (arg : string) (annotation : node)
| Other (addr : N) (class_name : string) (value : option node).

End ast.

(** The classes that are looked up in the operator table: the class of an
    operator node, and [list], the class of the [ops] field of a comparison. *)
Inductive pytype : Set :=
| type_op (c : ast.op_class)
| type_list.

Definition op_class_eqb (a b : ast.op_class) : bool :=
  match a, b with
  | ast.Add, ast.Add | ast.Sub, ast.Sub | ast.Mult, ast.Mult
  | ast.MatMult, ast.MatMult | ast.Div, ast.Div | ast.Pow, ast.Pow
  | ast.Mod, ast.Mod | ast.LShift, ast.LShift | ast.RShift, ast.RShift
  | ast.BitOr, ast.BitOr | ast.BitXor, ast.BitXor | ast.BitAnd, ast.BitAnd
  | ast.FloorDiv, ast.FloorDiv | ast.Eq, ast.Eq | ast.NotEq, ast.NotEq
  | ast.Lt, ast.Lt | ast.LtE, ast.LtE | ast.Gt, ast.Gt | ast.GtE, ast.GtE
  | ast.Is, ast.Is | ast.IsNot, ast.IsNot | ast.In, ast.In
  | ast.NotIn, ast.NotIn => true
  | _, _ => false
  end.

Definition pytype_eqb (a b : pytype) : bool :=
  match a, b with
  | type_op x, type_op y => op_class_eqb x y
  | type_list, type_list => true
  | _, _ => false
  end.

(** ** The operator table *)

Definition operators : list (pytype * string) :=
  [ (type_op ast.Add, "+");
    (type_op ast.Sub, "-");
    (type_op ast.Mult, "*");
    (type_op ast.Div, "/");
    (type_op ast.Pow, "**");
    (type_op ast.Mod, "%");
    (type_op ast.LShift, "<<");
    (type_op ast.RShift, ">>");
    (type_op ast.BitOr, "|");
    (type_op ast.BitXor, "^");
    (type_op ast.BitAnd, "&");
    (type_op ast.FloorDiv, "//");
    (type_op ast.Eq, "==");
    (type_op ast.NotEq, "!=");
    (type_op ast.Lt, "<");
    (type_op ast.LtE, "<=");
    (type_op ast.Gt, ">");
    (type_op ast.GtE, ">=");
    (type_op ast.Is, "is");
    (type_op ast.IsNot, "is not");
    (type_op ast.In, "in");
    (type_op ast.NotIn, "not in") ].

(** [d.get(k)] on a dictionary written as its list of items. *)
Fixpoint dict_get (d : list (pytype * string)) (k : pytype) : option string :=
  match d with
  | [] => None
  | (k', v) :: d' => if pytype_eqb k' k then Some v else dict_get d' k
  end.

(** [d[k]]: the value, or [KeyError]. *)
Definition dict_item (d : list (pytype * string)) (k : pytype) : res string :=
  match dict_get d k with
  | Some v => Ok v
  | None => Err KeyError
  end.

(** ** Attributes and [str] *)

Definition class_name (n : ast.node) : string :=
  match n with
  | ast.None_ => "NoneType"
  | ast.Name _ _ => "Name"
  | ast.Constant _ _ => "Constant"
  | ast.Call _ _ _ => "Call"
  | ast.Attribute _ _ _ => "Attribute"
  | ast.BinOp _ _ _ _ => "BinOp"
  | ast.Compare _ _ _ _ => "Compare"
  | ast.List _ _ _ => "List"
  | ast.Expr _ _ _ => "Expr"
  | ast.Pass _ _ => "Pass"
  | ast.AnnAssign _ _ _ _ _ => "AnnAssign"
  | ast.Assign _ _ _ _ => "Assign"
  | ast.Return _ _ _ => "Return"
  | ast.For _ _ _ _ _ => "For"
  | ast.AugAssign _ _ _ _ _ => "AugAssign"
  | ast.If _ _ _ _ => "If"
  | ast.Import _ _ _ => "Import"
  | ast.ImportFrom _ _ _ _ _ => "ImportFrom"
  | ast.Raise _ _ _ => "Raise"
  | ast.FunctionDef _ _ _ _ _ _ _ => "FunctionDef"
  | ast.ClassDef _ _ _ _ => "ClassDef"
  | ast.alias _ _ => "alias"
  | ast.arguments _ _ => "arguments"
  | ast.arg _ _ _ => "arg"
  | ast.Other _ c _ => c
  end.

Definition addr_of (n : ast.node) : N :=
  match n with
  | ast.None_ => 0%N
  | ast.Name a _ | ast.Constant a _ | ast.Call a _ _ | ast.Attribute a _ _
  | ast.BinOp a _ _ _ | ast.Compare a _ _ _ | ast.List a _ _ | ast.Expr a _ _
  | ast.Pass a _ | ast.AnnAssign a _ _ _ _ | ast.Assign a _ _ _
  | ast.Return a _ _ | ast.For a _ _ _ _ | ast.AugAssign a _ _ _ _
  | ast.If a _ _ _ | ast.Import a _ _ | ast.ImportFrom a _ _ _ _
  | ast.Raise a _ _ | ast.FunctionDef a _ _ _ _ _ _ | ast.ClassDef a _ _ _
  | ast.alias a _ | ast.arguments a _ | ast.arg a _ _ | ast.Other a _ _ => a
  end.

Definition hex (a : N) : string :=
  HexadecimalString.NilZero.string_of_uint (N.to_hex_uint a).

(** [object.__repr__] of a syntax node. *)
Definition object_repr (n : ast.node) : string :=
  "<ast." ++ class_name n ++ " object at 0x" ++ hex (addr_of n) ++ ">".

(** [str(x)] for [x] a node or [None]. *)
Definition str_node (n : ast.node) : string :=
  match n with
  | ast.None_ => "None"
  | _ => object_repr n
  end.

(** The default of [sys.get_int_max_str_digits()]. *)
Definition int_max_str_digits : nat := 4300.

(** [str(z)] for an integer: the decimal text, or [ValueError] when the
    integer has more digits than the limit. *)
Definition str_int (z : Z) : res string :=
  let digits := DecimalString.NilZero.string_of_int (Z.to_int (Z.abs z)) in
  if Nat.ltb int_max_str_digits (String.length digits) then Err ValueError
  else Ok (DecimalString.NilZero.string_of_int (Z.to_int z)).

(** [str(v)] for [v] the value of a constant. *)
Definition str_constant (c : ast.constant) : res string :=
  match c with
  | ast.c_str s => Ok s
  | ast.c_int z => str_int z
  | ast.c_bool true => Ok "True"
  | ast.c_bool false => Ok "False"
  | ast.c_None => Ok "None"
  | ast.c_Ellipsis => Ok "Ellipsis"
  | ast.c_other text => Ok text
  end.

(** [n.id]: only [Name] has the attribute. *)
Definition attr_id (n : ast.node) : res string :=
  match n with
  | ast.Name _ id => Ok id
  | _ => Err AttributeError
  end.

(** [n.name]: import aliases, function and class definitions have it. *)
Definition attr_name (n : ast.node) : res string :=
  match n with
  | ast.alias _ name => Ok name
  | ast.FunctionDef _ _ name _ _ _ _ => Ok name
  | ast.ClassDef _ _ name _ => Ok name
  | _ => Err AttributeError
  end.

(** ** The rendering methods *)

(** [parse_atom], over the [parse_expr] it falls back to. *)
Definition parse_atom_of (parse_expr : ast.node -> res string)
    (node : ast.node) : res string :=
  match node with
  | ast.Name _ id => Ok id
  | ast.Constant _ value =>
      match value with
      | ast.c_str s => Ok ("'" ++ s ++ "'")
      | _ => str_constant value
      end
  | _ => parse_expr node
  end.

(** One parameter of a function definition, as [parse_args] writes it:
    [f'{arg.annotation.id} {arg.arg}' if arg.annotation else arg.arg]. *)
Definition parse_arg (a : ast.node) : res string :=
  match a with
  | ast.arg _ name annotation =>
      match annotation with
      | ast.None_ => Ok name
      | _ => t <- attr_id annotation ;; Ok (t ++ " " ++ name)
      end
  | _ => Err AttributeError
  end.

(** [parse_args], over the [parse_atom] it maps on a list.  The argument is
    a node (the [args] field of a function definition) or a list of nodes. *)
Definition parse_args_of (parse_atom : ast.node -> res string)
    (arguments : ast.node + list ast.node) : res string :=
  match arguments with
  (* hasattr(arguments, 'args') *)
  | inl (ast.arguments _ args) | inl (ast.Call _ _ args) =>
      l <- mapM parse_arg args ;; Ok (join ", " l)
  | inl (ast.FunctionDef _ _ _ _ _ _ _) => Err TypeError (* not iterable *)
  (* neither: r stays empty *)
  | inl _ => Ok EmptyString
  (* isinstance(arguments, list) *)
  | inr l =>
      l' <- mapM parse_atom l ;; Ok (join ", " l')
  end.

(** The branch of [parse_expr] taken when [expr] has a [value] attribute that
    is a node: the dispatch is on the class of [expr.value]. *)
Definition parse_expr_value (parse_args : ast.node + list ast.node -> res string)
    (expr value : ast.node) : res string :=
  match value with
  | ast.Name _ _ => attr_id expr
  | ast.Call _ func args =>
      match func with
      | ast.Attribute _ obj attr =>
          o <- attr_id obj ;;
          a <- parse_args (inr args) ;;
          Ok (o ++ "." ++ attr ++ "(" ++ a ++ ")")
      | _ =>
          f <- attr_id func ;;
          a <- parse_args (inr args) ;;
          Ok (f ++ "(" ++ a ++ ")")
      end
  | _ => Ok (str_node value)
  end.

Fixpoint parse_expr (expr : ast.node) {struct expr} : res string :=
  let parse_atom := parse_atom_of parse_expr in
  let parse_args := parse_args_of parse_atom in
  match expr with
  (* hasattr(expr, 'value'), the value being a node *)
  | ast.Attribute _ value _
  | ast.Expr _ _ value
  | ast.AnnAssign _ _ _ _ value
  | ast.Assign _ _ _ value
  | ast.Return _ _ value
  | ast.AugAssign _ _ _ _ value
  | ast.Other _ _ (Some value) => parse_expr_value parse_args expr value
  (* hasattr(expr, 'value'), the value being a constant: case _ *)
  | ast.Constant _ value => str_constant value
  | ast.Call _ func args =>
      match func with
      | ast.Attribute _ obj attr =>
          o <- parse_atom obj ;;
          a <- parse_args (inr args) ;;
          Ok (o ++ "." ++ attr ++ "(" ++ a ++ ")")
      | _ =>
          f <- attr_id func ;;
          a <- parse_args (inr args) ;;
          Ok (f ++ "(" ++ a ++ ")")
      end
  | ast.BinOp _ left_ op right_ =>
      l <- parse_atom left_ ;;
      o <- dict_item operators (type_op op) ;;
      r <- parse_atom right_ ;;
      Ok (l ++ " " ++ o ++ " " ++ r)
  | ast.Compare _ left_ ops comparators =>
      l <- parse_atom left_ ;;
      o <- dict_item operators type_list ;;
      c <- match comparators with
           | c0 :: _ => parse_atom c0
           | [] => Err IndexError
           end ;;
      Ok (l ++ " " ++ o ++ " " ++ c)
  | _ => Ok (str_node expr)
  end.

Definition parse_atom : ast.node -> res string := parse_atom_of parse_expr.

Definition parse_args : ast.node + list ast.node -> res string :=
  parse_args_of parse_atom.

(** [parse_body], over the [parse_stmt] it calls: the loop with its
    accumulator [r], a statement that renders to [None] being skipped. *)
Definition parse_body_of (parse_stmt : ast.node -> res (option string))
    : list ast.node -> string -> res string :=
  fix loop (body : list ast.node) (r : string) : res string :=
    match body with
    | [] => Ok r
    | stmt :: body' =>
        s <- parse_stmt stmt ;;
        match s with
        | Some s' => loop body' (r ++ s')
        | None => loop body' r
        end
    end.

(** What one decorator adds to the options of a function definition. *)
Definition decorator_option (decorator : ast.node) : res (option string) :=
  match decorator with
  | ast.Call _ func args =>
      f <- attr_id func ;;
      if String.eqb f "no_gil" then Ok (Some "nogil")
      else if String.eqb f "except_error" then
        a <- parse_args (inr args) ;; Ok (Some ("except " ++ a))
      else Ok None
  | _ => Err AttributeError
  end.

(** The loop over [stmt.decorator_list], appending to [options]. *)
Fixpoint collect_options (decorator_list : list ast.node) (options : list string)
    : res (list string) :=
  match decorator_list with
  | [] => Ok options
  | decorator :: rest =>
      o <- decorator_option decorator ;;
      match o with
      | Some tok => collect_options rest (options ++ [tok])
      | None => collect_options rest options
      end
  end.

(** The result is [Some] text, or [None] when no case returns. *)
Fixpoint parse_stmt (stmt : ast.node) {struct stmt} : res (option string) :=
  let parse_body := fun body => parse_body_of parse_stmt body EmptyString in
  match stmt with
  | ast.Expr _ _ _ =>
      e <- parse_expr stmt ;; Ok (Some e)
  | ast.Pass _ col_offset =>
      Ok (Some (space col_offset ++ "..."))
  | ast.List _ col_offset elts =>
      l <- mapM parse_expr elts ;;
      Ok (Some (space col_offset ++ "[" ++ join ", " l ++ "]"))
  | ast.AnnAssign _ col_offset target annotation value =>
      t <- attr_id target ;;
      a <- attr_id annotation ;;
      v <- parse_expr value ;;
      Ok (Some (space col_offset ++ t ++ ": " ++ a ++ " = " ++ v))
  | ast.Assign _ col_offset targets value =>
      t <- match targets with
           | t0 :: _ => attr_id t0
           | [] => Err IndexError
           end ;;
      v <- parse_expr value ;;
      Ok (Some (space col_offset ++ t ++ " = " ++ v))
  | ast.Return _ col_offset value =>
      v <- parse_expr value ;;
      Ok (Some (space col_offset ++ "return " ++ v))
  | ast.For _ col_offset target iter body =>
      t <- attr_id target ;;
      i <- parse_expr iter ;;
      b <- parse_body body ;;
      Ok (Some (space col_offset ++ "for " ++ t ++ " in " ++ i ++ ":" ++ nl
                  ++ b ++ nl))
  | ast.AugAssign _ col_offset target op value =>
      o <- dict_item operators (type_op op) ;;
      v <- parse_expr value ;;
      Ok (Some (space col_offset ++ str_node target ++ " " ++ o ++ "= " ++ v))
  | ast.If _ col_offset test body =>
      t <- parse_expr test ;;
      b <- parse_body body ;;
      Ok (Some (space col_offset ++ "if " ++ t ++ ":" ++ nl ++ b ++ nl))
  | ast.Import _ col_offset names =>
      n <- parse_args (inr names) ;;
      Ok (Some (space col_offset ++ "import " ++ n))
  | ast.ImportFrom _ col_offset module names level =>
      match module with
      | None =>
          n <- mapM attr_name names ;;
          Ok (Some (space col_offset ++ "from " ++ str_mul "." level
                      ++ " import " ++ join ", " n ++ nl))
      | Some m =>
          n <- mapM attr_name names ;;
          Ok (Some (space col_offset ++ "from " ++ str_mul "." level ++ m
                      ++ " import " ++ join ", " n ++ nl))
      end
  | ast.Raise _ col_offset exc =>
      match exc with
      | ast.Name _ id =>
          Ok (Some (space col_offset ++ "raise " ++ id))
      | ast.Call _ func args =>
          f <- attr_id func ;;
          a <- parse_args (inr args) ;;
          Ok (Some (space col_offset ++ "raise " ++ f ++ "(" ++ a ++ "))"))
      | _ => Ok None
      end
  | ast.FunctionDef _ col_offset name args body decorator_list returns =>
      options <- collect_options decorator_list [] ;;
      match returns with
      | ast.None_ =>
          a <- parse_args (inl args) ;;
          b <- parse_body body ;;
          Ok (Some (space col_offset ++ "def " ++ name ++ "(" ++ a ++ ") "
                      ++ join ", " options ++ ":" ++ nl ++ b ++ nl))
      | _ =>
          r <- attr_id returns ;;
          a <- parse_args (inl args) ;;
          b <- parse_body body ;;
          Ok (Some (space col_offset ++ "cdef " ++ r ++ " " ++ name
                      ++ "(" ++ a ++ ") " ++ join ", " options ++ ":" ++ nl
                      ++ b ++ nl))
      end
  | _ => Ok None
  end.

Definition parse_body (body : list ast.node) : res string :=
  parse_body_of parse_stmt body EmptyString.

(** ** The constructor *)

(** The loop of [__init__] over [tree.body], with its accumulator:
    [generate += self.parse_stmt(node) + '\n']; adding [None] to a string
    raises [TypeError]. *)
Fixpoint main_loop (body : list ast.node) (generate : string) : res string :=
  match body with
  | [] => Ok generate
  | node :: body' =>
      s <- parse_stmt node ;;
      match s with
      | Some s' => main_loop body' (generate ++ (s' ++ nl))
      | None => Err TypeError
      end
  end.

Section Generator.

(** The platform of a run.  [memory] is the state of the allocator when the
    parser is called: it decides the addresses of the nodes of the tree, so
    two calls of the parser on one text need not give the same addresses.
    [ast_parse mem code] is [ast.parse(code).body], or the exception the
    parser raises.  [resolve] gives the file that a path names, so that two
    spellings of one path are one key of the files.  [encode] and [decode]
    are those of the encoding [open] uses for text; they fail on what the
    encoding cannot express. *)
Variable memory : Type.
Variable ast_parse : memory -> string -> res (list ast.node).
Variable resolve : string -> string.
Variable encode : string -> option (list byte).
Variable decode : list byte -> option string.

(** [with open(filename, 'r') as f: ... f.read()] on the files [fs], a map
    from file to contents. *)
Definition read_file (fs : gmap string (list byte)) (filename : string)
    : res string :=
  match fs !! resolve filename with
  | None => Err FileNotFoundError
  | Some raw =>
      match decode raw with
      | Some text => Ok text
      | None => Err UnicodeDecodeError
      end
  end.

(** [with open(filename, 'w') as f: f.write(text)]: opening empties the file
    or creates it, then writing encodes the text. *)
Definition write_file (fs : gmap string (list byte)) (filename text : string)
    : res unit * gmap string (list byte) :=
  let opened := <[resolve filename := []]> fs in
  match encode text with
  | Some raw => (Ok tt, <[resolve filename := raw]> opened)
  | None => (Err UnicodeEncodeError, opened)
  end.

(** The code that is parsed: the check of the two arguments, then the
    contents of the file when there is a file name, the inline code
    otherwise. *)
Definition source_code (fs : gmap string (list byte))
    (filename code : option string) : res string :=
  match filename, code with
  | None, None => Err TypeError
  | Some f, _ => read_file fs f
  | None, Some c => Ok c
  end.

(** [Generator(filename=..., code=...)] run at the memory state [mem] on
    the files [fs]: the outcome and the files after. *)
Definition Generator (mem : memory) (fs : gmap string (list byte))
    (filename code : option string) : res unit * gmap string (list byte) :=
  match c <- source_code fs filename code ;;
        tree <- ast_parse mem c ;;
        main_loop tree EmptyString with
  | Ok generate => write_file fs "generated.pyx" generate
  | Err e => (Err e, fs)
  end.

End Generator.

Arguments Generator {memory} ast_parse resolve encode decode mem fs filename code.

(** ** What the specification says of the operator table *)

(** The enumerated operator set of the specification. *)
Definition operator_set : list ast.op_class :=
  [ ast.Add; ast.Sub; ast.Mult; ast.Div; ast.Pow; ast.Mod;
    ast.LShift; ast.RShift; ast.BitOr; ast.BitXor; ast.BitAnd; ast.FloorDiv;
    ast.Eq; ast.NotEq; ast.Lt; ast.LtE; ast.Gt; ast.GtE;
    ast.Is; ast.IsNot; ast.In; ast.NotIn ].

(** The symbol of each operator kind, as the language writes it. *)
Definition documented_symbol (o : ast.op_class) : string :=
  match o with
  | ast.Add => "+"
  | ast.Sub => "-"
  | ast.Mult => "*"
  | ast.MatMult => "@"
  | ast.Div => "/"
  | ast.Pow => "**"
  | ast.Mod => "%"
  | ast.LShift => "<<"
  | ast.RShift => ">>"
  | ast.BitOr => "|"
  | ast.BitXor => "^"
  | ast.BitAnd => "&"
  | ast.FloorDiv => "//"
  | ast.Eq => "=="
  | ast.NotEq => "!="
  | ast.Lt => "<"
  | ast.LtE => "<="
  | ast.Gt => ">"
  | ast.GtE => ">="
  | ast.Is => "is"
  | ast.IsNot => "is not"
  | ast.In => "in"
  | ast.NotIn => "not in"
  end.

(** ** Characters of a string *)


(** ** Measuring indentation *)

Fixpoint leading_spaces (s : string) : nat :=
  match s with
  | String c s' => if Ascii.eqb c " " then S (leading_spaces s') else 0
  | EmptyString => 0
  end.

(** [stmt.col_offset], for the classes that [parse_stmt] has a case for. *)
Definition attr_col_offset (stmt : ast.node) : option nat :=
  match stmt with
  | ast.List _ c _ | ast.Expr _ c _ | ast.Pass _ c | ast.AnnAssign _ c _ _ _
  | ast.Assign _ c _ _ | ast.Return _ c _ | ast.For _ c _ _ _
  | ast.AugAssign _ c _ _ _ | ast.If _ c _ _ | ast.Import _ c _
  | ast.ImportFrom _ c _ _ _ | ast.Raise _ c _
  | ast.FunctionDef _ c _ _ _ _ _ => Some c
  | _ => None
  end.

Definition is_Expr (stmt : ast.node) : bool :=
  match stmt with
  | ast.Expr _ _ _ => true
  | _ => false
  end.

(** An identifier is not empty and does not begin with a space. *)
Definition identifier_start (id : string) : bool :=
  match id with
  | String c _ => negb (Ascii.eqb c " ")
  | EmptyString => false
  end.

(** The name an assignment statement begins with is an identifier. *)
Definition target_is_identifier (stmt : ast.node) : bool :=
  match stmt with
  | ast.AnnAssign _ _ (ast.Name _ id) _ _ => identifier_start id
  | ast.Assign _ _ (ast.Name _ id :: _) _ => identifier_start id
  | _ => true
  end.

(** ** Sample trees *)

(** [def f(x: int) -> int:] with the body [return x]. *)
Definition typed_function (a1 a2 a3 a4 a5 a6 a7 : N) : ast.node :=
  ast.FunctionDef a1 0 "f"
    (ast.arguments a2 [ast.arg a3 "x" (ast.Name a4 "int")])
    [ast.Return a5 4 (ast.Name a6 "x")]
    []
    (ast.Name a7 "int").

(** [print(x)], four columns in. *)
Definition print_statement : ast.node :=
  ast.Expr 1 4 (ast.Call 2 (ast.Name 3 "print") [ast.Name 4 "x"]).

(** [a < b] *)
Definition a_less_b : ast.node :=
  ast.Compare 1 (ast.Name 2 "a") [ast.Lt] [ast.Name 3 "b"].

(** [x += 1], the target at address [ta]. *)
Definition x_plus_equal_1 (ta : N) : ast.node :=
  ast.AugAssign 1 0 (ast.Name ta "x") ast.Add (ast.Constant 2 (ast.c_int 1)).

(** [@no_gil()] and [@except_error('ValueError')] on [def f(): pass]. *)
Definition both_markers : list ast.node :=
  [ ast.Call 2 (ast.Name 3 "no_gil") [];
    ast.Call 4 (ast.Name 5 "except_error")
      [ast.Constant 6 (ast.c_str "ValueError")] ].

(** [@cache()], [@no_gil()] and [@except_error(E)]. *)
Definition three_decorators : list ast.node :=
  [ ast.Call 2 (ast.Name 3 "cache") [];
    ast.Call 4 (ast.Name 5 "no_gil") [];
    ast.Call 6 (ast.Name 7 "except_error") [ast.Name 8 "E"] ].

Definition marked_function : ast.node :=
  ast.FunctionDef 1 0 "f" (ast.arguments 7 []) [ast.Pass 8 4]
    both_markers ast.None_.

(** A sample platform.  The parser knows two programs, [pass] and
    [x += 1], and puts the nodes where the memory state says; a path may
    begin with [./]; the encoding is ASCII. *)
Definition sample_parse (mem : N) (code : string) : res (list ast.node) :=
  if String.eqb code "pass" then Ok [ast.Pass mem 0]
  else if String.eqb code "x += 1" then Ok [x_plus_equal_1 mem]
  else Err SyntaxError.

Definition sample_resolve (path : string) : string :=
  match path with
  | String "." (String "/" rest) => rest
  | _ => path
  end.

Definition is_ascii (text : string) : bool :=
  forallb (fun c => Nat.ltb (nat_of_ascii c) 128) (list_ascii_of_string text).

Definition ascii_encode (text : string) : option (list byte) :=
  if is_ascii text then Some (list_byte_of_string text) else None.

Definition ascii_decode (raw : list byte) : option string :=
  if is_ascii (string_of_list_byte raw) then Some (string_of_list_byte raw)
  else None.

(** ** Statements that render to nothing *)

(** The nodes for which no case of [parse_stmt] returns: those of a class
    without a case, and a [raise] of anything but a name or a call. *)
Definition no_case (stmt : ast.node) : bool :=
  match stmt with
  | ast.List _ _ _ | ast.Expr _ _ _ | ast.Pass _ _ | ast.AnnAssign _ _ _ _ _
  | ast.Assign _ _ _ _ | ast.Return _ _ _ | ast.For _ _ _ _ _
  | ast.AugAssign _ _ _ _ _ | ast.If _ _ _ _ | ast.Import _ _ _
  | ast.ImportFrom _ _ _ _ _ | ast.FunctionDef _ _ _ _ _ _ _ => false
  | ast.Raise _ _ (ast.Name _ _) | ast.Raise _ _ (ast.Call _ _ _) => false
  | _ => true
  end.

(** ** Parameters *)

(** A parameter without annotation, or annotated with a name. *)
Definition is_simple_param (n : ast.node) : bool :=
  match n with
  | ast.arg _ _ ast.None_ | ast.arg _ _ (ast.Name _ _) => true
  | _ => false
  end.

(** Its text in a header: the type, when there is one, then the name. *)
Definition param_text (n : ast.node) : string :=
  match n with
  | ast.arg _ name (ast.Name _ type) => type ++ " " ++ name
  | ast.arg _ name _ => name
  | _ => EmptyString
  end.

(** A decorator that is a call of a name other than the two the generator
    knows. *)
Definition is_unknown_decorator (d : ast.node) : bool :=
  match d with
  | ast.Call _ (ast.Name _ f) _ =>
      negb (String.eqb f "no_gil") && negb (String.eqb f "except_error")
  | _ => false
  end.

(** ** Option tokens *)

(** The option tokens that the decorators of a function definition give, in
    the order of the decorators: [nogil] for a call of [no_gil], [except]
    followed by the rendered arguments for a call of [except_error], nothing
    for a call of another name. *)
Inductive option_tokens : list ast.node -> list string -> Prop :=
| tokens_done : option_tokens [] []
| tokens_no_lock (a a' : N) (args rest : list ast.node) (toks : list string) :
    option_tokens rest toks ->
    option_tokens (ast.Call a (ast.Name a' "no_gil") args :: rest)
                  ("nogil" :: toks)
| tokens_filtered_exception (a a' : N) (args rest : list ast.node)
    (texts toks : list string) :
    Forall2 (fun x t => parse_atom x = Ok t) args texts ->
    option_tokens rest toks ->
    option_tokens (ast.Call a (ast.Name a' "except_error") args :: rest)
                  (("except " ++ join ", " texts) :: toks)
| tokens_other (d : ast.node) (rest : list ast.node) (toks : list string) :
    is_unknown_decorator d = true ->
    option_tokens rest toks ->
    option_tokens (d :: rest) toks.

(** ** The decorators at run time *)

(** An exception, as [except_error] looks at it: the name of its class, and
    whether the class derives from [Exception]. *)
Record exception : Type := {
  exception_class : string;
  is_Exception : bool
}.

Inductive outcome (V : Type) : Type :=
| Returns (v : V)
| Raises (e : exception).

Arguments Returns {V} v.
Arguments Raises {V} e.

(** A function called on its arguments in a state: what it returns or
    raises, and the state it leaves. *)
Definition callable (A S V : Type) : Type := A -> S -> outcome V * S.

(** [except_error(err_name)(func)]: the wrapper.  [py_None] is the value
    [None], which the wrapper returns when it lets an exception go. *)
Definition except_error {A S V : Type} (py_None : V) (err_name : string)
    (func : callable A S V) : callable A S V :=
  fun args s =>
    match func args s with
    | (Returns v, s') => (Returns v, s')
    | (Raises e, s') =>
        if is_Exception e then
          if negb (String.eqb (exception_class e) err_name)
          then (Raises e, s')
          else (Returns py_None, s')
        else (Raises e, s')
    end.

(** [no_gil()(func)]: the wrapper. *)
Definition no_gil {A S V : Type} (func : callable A S V) : callable A S V :=
  fun args s => func args s.

(** ** Lines *)

(** The texts of the statements of a list, each followed by a line end. *)
Fixpoint lines (texts : list string) : string :=
  match texts with
  | [] => EmptyString
  | s :: texts' => (s ++ nl) ++ lines texts'
  end.

(** A decorator that is a call of a name. *)
Definition is_call_of_name (d : ast.node) : bool :=
  match d with
  | ast.Call _ (ast.Name _ _) _ => true
  | _ => false
  end.

(** ** Import aliases *)

(** The alias node at an address, for a name. *)
Definition alias_of (p : N * string) : ast.node := ast.alias (fst p) (snd p).

(** * Properties *)

(** ** Results and strings *)

Lemma bind_Ok {A B : Type} (m : res A) (k : A -> res B) (b : B) :
  bind m k = Ok b -> exists a, m = Ok a /\ k a = Ok b.
Proof. destruct m as [a|e]; simpl; intros H; [eauto | discriminate]. Qed.

Lemma str_app_cons (x : ascii) (a b : string) :
  String x a ++ b = String x (a ++ b).
Proof. reflexivity. Qed.

Lemma str_app_assoc (a b c : string) : (a ++ b) ++ c = a ++ (b ++ c).
Proof.
  induction a as [|x a IH]; [reflexivity |].
  rewrite !str_app_cons. now rewrite IH.
Qed.

Lemma str_app_nil_r (a : string) : a ++ EmptyString = a.
Proof.
  induction a as [|x a IH]; [reflexivity |].
  rewrite str_app_cons. now rewrite IH.
Qed.

Lemma space_S (n : nat) : space (S n) = String " " (space n).
Proof. reflexivity. Qed.

Lemma leading_spaces_space (n : nat) (c : ascii) (s : string) :
  c <> " "%char -> leading_spaces (space n ++ String c s) = n.
Proof.
  intros Hc. induction n as [|n IH].
  - change (space 0 ++ String c s) with (String c s). simpl.
    destruct (Ascii.eqb_spec c " "); [contradiction | reflexivity].
  - rewrite space_S, str_app_cons. simpl. now rewrite IH.
Qed.

(** ** Lists under [mapM] *)

Lemma mapM_Ok {A B : Type} (f : A -> res B) (l : list A) (ys : list B) :
  mapM f l = Ok ys <-> Forall2 (fun x y => f x = Ok y) l ys.
Proof.
  revert ys. induction l as [|x l IH]; intros ys; simpl.
  - split.
    + intros [= <-]. constructor.
    + intros H. inversion H. reflexivity.
  - split.
    + intros H. apply bind_Ok in H as (y & Hy & H).
      apply bind_Ok in H as (ys' & Hys & H). injection H as <-.
      constructor; [exact Hy | now apply IH].
    + intros H. inversion H as [|x' y l' ys' Hy Hys]; subst.
      rewrite Hy. simpl. apply IH in Hys. now rewrite Hys.
Qed.

Lemma mapM_map {A B : Type} (f : A -> res B) (g : A -> B) (l : list A) :
  Forall (fun x => f x = Ok (g x)) l -> mapM f l = Ok (map g l).
Proof.
  induction 1 as [|x l Hx _ IH]; simpl; [reflexivity |].
  now rewrite Hx, IH.
Qed.

(** ** Tactics *)

Ltac first_char :=
  symmetry; rewrite ?str_app_cons; apply leading_spaces_space; discriminate.

Ltac invert_binds H :=
  repeat match type of H with
         | bind _ _ = Ok _ =>
             let x := fresh "x" in
             let Hx := fresh "Hx" in
             apply bind_Ok in H as (x & Hx & H)
         end.

Ltac rendered H := invert_binds H; injection H as <-.

Ltac case_head H :=
  match type of H with
  | match ?e with _ => _ end = _ => destruct e
  end.

(** ** The operator table *)

Lemma op_class_eqb_eq (a b : ast.op_class) : op_class_eqb a b = true <-> a = b.
Proof. split; [destruct a, b; simpl; congruence | intros ->; now destruct b]. Qed.

(** The table has no entry for matrix multiplication, nor for [list]. *)
Lemma operators_missing :
  dict_item operators (type_op ast.MatMult) = Err KeyError
  /\ dict_item operators type_list = Err KeyError.
Proof. split; reflexivity. Qed.

(** C5. The operator table is total over the enumerated operator set: the
    lookup of every operator kind of the set succeeds and gives the symbol
    documented for it. *)
Theorem operators_total (o : ast.op_class) :
  In o operator_set ->
  dict_item operators (type_op o) = Ok (documented_symbol o).
Proof.
  unfold operator_set. simpl.
  intros H; repeat (destruct H as [<- | H]; [reflexivity |]); destruct H.
Qed.

Lemma operators_total_witness :
  In ast.FloorDiv operator_set
  /\ dict_item operators (type_op ast.FloorDiv) = Ok "//".
Proof.
  split.
  - unfold operator_set. simpl. tauto.
  - apply (operators_total ast.FloorDiv). unfold operator_set. simpl. tauto.
Defined.

(** ** The loops and their accumulators *)

(** The body loop only appends to its accumulator. *)
Lemma parse_body_of_acc (f : ast.node -> res (option string))
    (body : list ast.node) (r : string) :
  parse_body_of f body r
  = (b <- parse_body_of f body EmptyString ;; Ok (r ++ b)).
Proof.
  revert r. induction body as [|stmt body IH]; intros r; simpl.
  - now rewrite str_app_nil_r.
  - destruct (f stmt) as [[s|]|e]; simpl; try reflexivity.
    + rewrite (IH (r ++ s)), (IH (EmptyString ++ s)).
      destruct (parse_body_of f body EmptyString) as [b|e]; simpl;
        [| reflexivity].
      now rewrite str_app_assoc.
    + apply IH.
Qed.

(** The main loop only appends to its accumulator. *)
Lemma main_loop_acc (body : list ast.node) (generate : string) :
  main_loop body generate
  = (out <- main_loop body EmptyString ;; Ok (generate ++ out)).
Proof.
  revert generate. induction body as [|node body IH]; intros g; simpl.
  - now rewrite str_app_nil_r.
  - destruct (parse_stmt node) as [[s|]|e]; simpl; try reflexivity.
    rewrite (IH (g ++ (s ++ nl))), (IH (EmptyString ++ (s ++ nl))).
    destruct (main_loop body EmptyString) as [out|e]; simpl; [| reflexivity].
    now rewrite str_app_assoc.
Qed.

Lemma parse_body_cons (stmt : ast.node) (body : list ast.node) :
  parse_body (stmt :: body)
  = (s <- parse_stmt stmt ;;
     b <- parse_body body ;;
     Ok (match s with Some s' => s' ++ b | None => b end)).
Proof.
  unfold parse_body. simpl.
  destruct (parse_stmt stmt) as [[s|]|e]; simpl; try reflexivity.
  - rewrite parse_body_of_acc. reflexivity.
  - now destruct (parse_body_of parse_stmt body EmptyString).
Qed.

Lemma parse_body_app (l1 l2 : list ast.node) :
  parse_body (l1 ++ l2)
  = (b1 <- parse_body l1 ;; b2 <- parse_body l2 ;; Ok (b1 ++ b2)).
Proof.
  induction l1 as [|stmt l1 IH].
  - simpl. change (parse_body []) with (@Ok string EmptyString). simpl.
    now destruct (parse_body l2).
  - change ((stmt :: l1) ++ l2)%list with (stmt :: (l1 ++ l2))%list.
    rewrite !parse_body_cons, IH.
    destruct (parse_stmt stmt) as [[s|]|e]; simpl; try reflexivity;
      destruct (parse_body l1) as [b1|e1]; simpl; try reflexivity;
      destruct (parse_body l2) as [b2|e2]; simpl; try reflexivity.
    now rewrite str_app_assoc.
Qed.

(** In a body, a statement that renders to nothing leaves no trace. *)
Lemma parse_body_skips (stmt : ast.node) (before after : list ast.node) :
  parse_stmt stmt = Ok None ->
  parse_body (before ++ stmt :: after) = parse_body (before ++ after).
Proof.
  intros H. rewrite !parse_body_app, parse_body_cons, H. simpl.
  destruct (parse_body before) as [b1|e1]; simpl; [| reflexivity].
  now destruct (parse_body after).
Qed.

(** At the top level, it stops the run with [TypeError]. *)
Lemma main_loop_None (stmt : ast.node) (before after : list ast.node)
    (generate generate' : string) :
  parse_stmt stmt = Ok None ->
  main_loop before generate = Ok generate' ->
  main_loop (before ++ stmt :: after) generate = Err TypeError.
Proof.
  intros H. revert generate.
  induction before as [|node before IH]; intros g Hb; simpl.
  - now rewrite H.
  - simpl in Hb. destruct (parse_stmt node) as [[s|]|e]; simpl in *;
      try discriminate.
    now apply IH.
Qed.

(** ** Scenarios of the specification *)

(** [x = 1 + 2] at offset 0. *)
Example scenario_assignment :
  parse_stmt
    (ast.Assign 1 0 [ast.Name 2 "x"]
       (ast.BinOp 3 (ast.Constant 4 (ast.c_int 1)) ast.Add
                    (ast.Constant 5 (ast.c_int 2))))
  = Ok (Some "x = 1 + 2").
Proof. reflexivity. Qed.

(** [for i in range(10):] at offset 0 with the body [pass] at offset 4. *)
Example scenario_for_loop :
  parse_stmt
    (ast.For 1 0 (ast.Name 2 "i")
       (ast.Call 3 (ast.Name 4 "range") [ast.Constant 5 (ast.c_int 10)])
       [ast.Pass 6 4])
  = Ok (Some ("for i in range(10):" ++ nl ++ "    ..." ++ nl)).
Proof. reflexivity. Qed.

(** [from . import foo, bar] *)
Example scenario_relative_import :
  parse_stmt
    (ast.ImportFrom 1 0 None [ast.alias 2 "foo"; ast.alias 3 "bar"] 1)
  = Ok (Some ("from . import foo, bar" ++ nl)).
Proof. reflexivity. Qed.

(** ** Statements without a case *)

(** C4. A class definition has no case in [parse_stmt]: it renders to
    nothing.  In a body it is skipped; in the statement list of the main
    loop it is not: the loop adds the missing text to a string and the run
    stops with [TypeError]. *)
Theorem class_definition_at_top_level (a : N) (col_offset : nat) (name : string)
    (body after : list ast.node) (generate : string) :
  parse_stmt (ast.ClassDef a col_offset name body) = Ok None
  /\ parse_body (ast.ClassDef a col_offset name body :: after) = parse_body after
  /\ main_loop (ast.ClassDef a col_offset name body :: after) generate
     = Err TypeError.
Proof.
  split; [reflexivity |]. split.
  - apply (parse_body_skips _ []). reflexivity.
  - reflexivity.
Qed.

(** ** Addresses *)





(** ** The constructor *)

Section GeneratorProperties.

Variable memory : Type.
Variable ast_parse : memory -> string -> res (list ast.node).
Variable resolve : string -> string.
Variable encode : string -> option (list byte).
Variable decode : list byte -> option string.

(** A program whose first statement renders to nothing stops the run
    before anything is written. *)
Lemma Generator_unrendered_statement (mem : memory)
    (fs : gmap string (list byte)) (code : string)
    (node : ast.node) (after : list ast.node) :
  ast_parse mem code = Ok (node :: after) ->
  parse_stmt node = Ok None ->
  Generator ast_parse resolve encode decode mem fs None (Some code)
  = (Err TypeError, fs).
Proof.
  intros Hp Hn. unfold Generator. simpl. rewrite Hp. simpl.
  now rewrite Hn.
Qed.

(** C8. With neither a file name nor inline code, the constructor raises
    [TypeError] at once: whatever the platform, the memory and the files,
    nothing is read, parsed or written. *)
Theorem Generator_without_input (mem : memory) (fs : gmap string (list byte)) :
  Generator ast_parse resolve encode decode mem fs None None = (Err TypeError, fs).
Proof. reflexivity. Qed.


End GeneratorProperties.


(** ** Equal trees *)



(** Two runs of the constructor on the inline code [x += 1], the parser
    putting the name at two different addresses, do not write the same
    file. *)
Example Generator_two_runs :
  snd (Generator sample_parse sample_resolve ascii_encode ascii_decode
         160%N ∅ None (Some "x += 1")) !! "generated.pyx"
  = Some (list_byte_of_string ("<ast.Name object at 0xa0> += 1" ++ nl))
  /\ snd (Generator sample_parse sample_resolve ascii_encode ascii_decode
            176%N ∅ None (Some "x += 1")) !! "generated.pyx"
     = Some (list_byte_of_string ("<ast.Name object at 0xb0> += 1" ++ nl)).
Proof. split; reflexivity. Qed.

(** ** Comparisons *)

(** The class looked up for a comparison is [list], which has no entry. *)
Lemma parse_expr_Compare (a : N) (left_ : ast.node) (ops : list ast.op_class)
    (comparators : list ast.node) :
  parse_expr (ast.Compare a left_ ops comparators)
  = (l <- parse_atom left_ ;; Err KeyError).
Proof. reflexivity. Qed.

(** C3. No comparison renders: whatever its operators and comparators,
    [parse_expr] raises; on [a < b] it raises [KeyError]. *)
Theorem comparison_raises :
  (forall (a : N) (left_ : ast.node) (ops : list ast.op_class)
          (comparators : list ast.node),
      exists e : exn, parse_expr (ast.Compare a left_ ops comparators) = Err e)
  /\ parse_expr a_less_b = Err KeyError.
Proof.
  split; [| reflexivity].
  intros a left_ ops comparators. rewrite parse_expr_Compare.
  destruct (parse_atom left_) as [l|e]; simpl; eauto.
Qed.

(** So a conditional on a comparison does not render either. *)
Lemma parse_stmt_If_Compare (a a' : N) (col_offset : nat) (left_ : ast.node)
    (ops : list ast.op_class) (comparators body : list ast.node) :
  exists e : exn,
    parse_stmt (ast.If a col_offset (ast.Compare a' left_ ops comparators) body)
    = Err e.
Proof.
  change (parse_stmt (ast.If a col_offset
                        (ast.Compare a' left_ ops comparators) body))
    with (t <- parse_expr (ast.Compare a' left_ ops comparators) ;;
          b <- parse_body body ;;
          Ok (Some (space col_offset ++ "if " ++ t ++ ":" ++ nl ++ b ++ nl))).
  rewrite parse_expr_Compare.
  destruct (parse_atom left_) as [l|e]; simpl; eauto.
Qed.

(** ** Augmented assignments *)

(** Whatever the name, the operator and the value, the text of an augmented
    assignment has the representation of the target where its identifier
    should be. *)
Lemma parse_stmt_AugAssign_Name (a ta : N) (col_offset : nat) (id : string)
    (op : ast.op_class) (value : ast.node) (s : string) :
  parse_stmt (ast.AugAssign a col_offset (ast.Name ta id) op value)
  = Ok (Some s) ->
  exists rest : string,
    s = space col_offset ++ "<ast.Name object at 0x" ++ hex ta ++ ">" ++ rest.
Proof.
  simpl. intros H. rendered H.
  exists (" " ++ x ++ "= " ++ x0). f_equal.
  unfold object_repr. simpl class_name. simpl addr_of.
  now rewrite !str_app_assoc.
Qed.


(** C6. The target of an augmented assignment is written with [str], not
    with its identifier: [x += 1] renders to the representation of the name
    node followed by [ += 1], which is not [x += 1]. *)
Theorem augmented_assignment_target (ta : N) :
  parse_stmt (x_plus_equal_1 ta)
  = Ok (Some (object_repr (ast.Name ta "x") ++ " += 1"))
  /\ parse_stmt (x_plus_equal_1 ta) <> Ok (Some "x += 1").
Proof.
  split; [reflexivity |].
  change (parse_stmt (x_plus_equal_1 ta))
    with (@Ok (option string) (Some (object_repr (ast.Name ta "x") ++ " += 1"))).
  unfold object_repr. rewrite !str_app_cons. discriminate.
Qed.

(** ** Function definitions *)

(** C2. The scenario of the specification: the header is the typed one, but
    the body [return x] is written with the representation of the name node,
    so the text is not the expected one. *)
Theorem typed_function_scenario (a1 a2 a3 a4 a5 a6 a7 : N) :
  parse_stmt (typed_function a1 a2 a3 a4 a5 a6 a7)
  = Ok (Some ("cdef int f(int x) :" ++ nl
                ++ "    return " ++ object_repr (ast.Name a6 "x") ++ nl))
  /\ parse_stmt (typed_function a1 a2 a3 a4 a5 a6 a7)
     <> Ok (Some ("cdef int f(int x) :" ++ nl ++ "    return x" ++ nl)).
Proof.
  assert (H : parse_stmt (typed_function a1 a2 a3 a4 a5 a6 a7)
              = Ok (Some ("cdef int f(int x) :" ++ nl
                            ++ "    return " ++ object_repr (ast.Name a6 "x")
                            ++ nl))) by reflexivity.
  split; [exact H |]. rewrite H. intros E. discriminate E.
Qed.

(** The two header forms: a function definition that renders has the plain
    header when it has no return annotation and the typed header when the
    annotation is a name; with any other annotation it does not render. *)
Lemma function_header_form (a : N) (col_offset : nat) (name : string)
    (args : ast.node) (body decorator_list : list ast.node)
    (returns : ast.node) (r : option string) :
  parse_stmt (ast.FunctionDef a col_offset name args body decorator_list returns)
  = Ok r ->
  (returns = ast.None_
   /\ exists rest, r = Some (space col_offset ++ "def " ++ name ++ "(" ++ rest))
  \/ (exists ra t rest,
        returns = ast.Name ra t
        /\ r = Some (space col_offset ++ "cdef " ++ t ++ " " ++ name
                       ++ "(" ++ rest)).
Proof.
  simpl. intros H.
  apply bind_Ok in H as (options & _ & H).
  destruct returns; simpl in H; try discriminate.
  - left. split; [reflexivity |].
    apply bind_Ok in H as (pa & _ & H). apply bind_Ok in H as (b & _ & H).
    injection H as <-. eauto.
  - right.
    apply bind_Ok in H as (pa & _ & H). apply bind_Ok in H as (b & _ & H).
    injection H as <-. eauto 6.
Qed.

(** ** Indentation *)

Lemma parse_expr_Expr (a : N) (c c' : nat) (value : ast.node) :
  parse_expr (ast.Expr a c value) = parse_expr (ast.Expr a c' value).
Proof. simpl. now destruct value. Qed.

(** C1. The column offset of an expression statement has no effect on its
    text: [print(x)] at column four renders to [print(x)], with no leading
    space. *)
Theorem expression_statement_not_indented :
  (forall (a : N) (c c' : nat) (value : ast.node),
      parse_stmt (ast.Expr a c value) = parse_stmt (ast.Expr a c' value))
  /\ attr_col_offset print_statement = Some 4
  /\ parse_stmt print_statement = Ok (Some "print(x)")
  /\ leading_spaces "print(x)" = 0.
Proof.
  split; [| repeat split; reflexivity].
  intros a c c' value.
  change (parse_stmt (ast.Expr a c value))
    with (e <- parse_expr (ast.Expr a c value) ;; Ok (Some e)).
  now rewrite (parse_expr_Expr a c c').
Qed.

Lemma attr_id_Ok (n : ast.node) (id : string) :
  attr_id n = Ok id -> exists a, n = ast.Name a id.
Proof. destruct n; simpl; intros [= <-]; eauto. Qed.

Lemma identifier_first_char (id rest : string) (n : nat) :
  identifier_start id = true ->
  leading_spaces (space n ++ id ++ rest) = n.
Proof.
  destruct id as [|c id]; simpl; [discriminate |].
  intros Hc. rewrite str_app_cons. apply leading_spaces_space.
  intros ->. discriminate.
Qed.

Lemma str_node_first_char (target : ast.node) (rest : string) (n : nat) :
  leading_spaces (space n ++ str_node target ++ rest) = n.
Proof.
  destruct target; unfold str_node, object_repr;
    rewrite ?str_app_cons; apply leading_spaces_space; discriminate.
Qed.

(** Every other statement that renders begins with as many spaces as its
    column offset, the names that begin assignments being identifiers. *)
Lemma indentation_law (stmt : ast.node) (s : string) :
  is_Expr stmt = false ->
  target_is_identifier stmt = true ->
  parse_stmt stmt = Ok (Some s) ->
  attr_col_offset stmt = Some (leading_spaces s).
Proof.
  intros HE HT H.
  destruct stmt; simpl in H, HE; try discriminate; simpl; f_equal.
  - (* List *) rendered H. first_char.
  - (* Pass *) rendered H. first_char.
  - (* AnnAssign *) rendered H.
    apply attr_id_Ok in Hx as [a ->]. simpl in HT.
    symmetry. now apply identifier_first_char.
  - (* Assign *) rendered H.
    destruct targets as [|t0 targets]; [discriminate |].
    apply attr_id_Ok in Hx as [a ->]. simpl in HT.
    symmetry. now apply identifier_first_char.
  - (* Return *) rendered H. first_char.
  - (* For *) rendered H. first_char.
  - (* AugAssign *) rendered H. symmetry. apply str_node_first_char.
  - (* If *) rendered H. first_char.
  - (* Import *) rendered H. first_char.
  - (* ImportFrom *) case_head H; rendered H; first_char.
  - (* Raise *) case_head H; try discriminate; rendered H; first_char.
  - (* FunctionDef *)
    apply bind_Ok in H as (options & _ & H).
    case_head H; simpl in H; try discriminate; rendered H; first_char.
Qed.

(** ** Options of a function definition *)

Lemma collect_options_app (ds1 ds2 : list ast.node) (options : list string) :
  collect_options (ds1 ++ ds2) options
  = (o <- collect_options ds1 options ;; collect_options ds2 o).
Proof.
  revert options. induction ds1 as [|d ds1 IH]; intros options; simpl;
    [reflexivity |].
  destruct (decorator_option d) as [[tok|]|e]; simpl; try reflexivity;
    apply IH.
Qed.

Lemma decorator_option_unknown (d : ast.node) :
  is_unknown_decorator d = true -> decorator_option d = Ok None.
Proof.
  destruct d as [ | | | a func args | | | | | | | | | | | | | | | | | | | | | ];
    try discriminate.
  destruct func; try discriminate. simpl.
  destruct (String.eqb id "no_gil"); [discriminate |].
  destruct (String.eqb id "except_error"); [discriminate | reflexivity].
Qed.

Lemma decorator_option_not_call (d : ast.node) :
  is_call_of_name d = false -> decorator_option d = Err AttributeError.
Proof.
  destruct d as [ | | | a func args | | | | | | | | | | | | | | | | | | | | | ];
    try reflexivity.
  destruct func; try reflexivity. discriminate.
Qed.

Lemma decorator_option_Ok (d : ast.node) (o : option string) :
  decorator_option d = Ok o ->
  (exists a a' args,
      d = ast.Call a (ast.Name a' "no_gil") args /\ o = Some "nogil")
  \/ (exists a a' args texts,
        d = ast.Call a (ast.Name a' "except_error") args
        /\ Forall2 (fun x t => parse_atom x = Ok t) args texts
        /\ o = Some ("except " ++ join ", " texts))
  \/ (is_unknown_decorator d = true /\ o = None).
Proof.
  destruct d as [ | | | a func args | | | | | | | | | | | | | | | | | | | | | ];
    try discriminate.
  destruct func as [ | a' f | | | | | | | | | | | | | | | | | | | | | | | ];
    try discriminate.
  simpl. destruct (String.eqb_spec f "no_gil") as [-> | Hn].
  - intros [= <-]. left. eauto.
  - destruct (String.eqb_spec f "except_error") as [-> | He].
    + intros H. apply bind_Ok in H as (r & Hr & H). injection H as <-.
      unfold parse_args, parse_args_of in Hr.
      apply bind_Ok in Hr as (texts & Ht & Hr). injection Hr as <-.
      apply mapM_Ok in Ht. right. left. eauto 8.
    + intros [= <-]. right. right. split; reflexivity.
Qed.

(** The loop over the decorators gives the option tokens, after the options
    it began with. *)
Lemma collect_options_tokens (decorator_list : list ast.node)
    (options result : list string) :
  collect_options decorator_list options = Ok result
  <-> exists toks : list string,
        option_tokens decorator_list toks /\ result = (options ++ toks)%list.
Proof.
  split.
  - revert options. induction decorator_list as [|d ds IH]; intros options H.
    + injection H as <-. exists []. split; [constructor | now rewrite app_nil_r].
    + simpl in H. apply bind_Ok in H as (o & Hd & H).
      apply decorator_option_Ok in Hd
        as [(a & a' & args & -> & ->)
           | [(a & a' & args & texts & -> & Hall & ->) | [Hu ->]]];
        apply IH in H as (toks & Htoks & ->).
      * exists ("nogil" :: toks). split; [now constructor |].
        now rewrite <- app_assoc.
      * exists (("except " ++ join ", " texts) :: toks).
        split; [now constructor |]. now rewrite <- app_assoc.
      * exists toks. split; [now constructor | reflexivity].
  - intros (toks & Htoks & ->). revert options.
    induction Htoks as [| a a' args rest toks _ IH
                        | a a' args rest texts toks Hall _ IH
                        | d rest toks Hu _ IH]; intros options.
    + simpl. now rewrite app_nil_r.
    + simpl. rewrite IH. now rewrite <- app_assoc.
    + change (collect_options
                (ast.Call a (ast.Name a' "except_error") args :: rest) options)
        with (o <- (r <- (l <- mapM parse_atom args ;; Ok (join ", " l)) ;;
                    Ok (Some ("except " ++ r))) ;;
              match o with
              | Some tok => collect_options rest (options ++ [tok])
              | None => collect_options rest options
              end).
      apply mapM_Ok in Hall. rewrite Hall. simpl. rewrite IH.
      now rewrite <- app_assoc.
    + simpl. rewrite (decorator_option_unknown d Hu). simpl. apply IH.
Qed.

(** [parse_stmt] on a function definition, step by step. *)
Lemma parse_stmt_FunctionDef (a : N) (col_offset : nat) (name : string)
    (args : ast.node) (body decorator_list : list ast.node)
    (returns : ast.node) :
  parse_stmt (ast.FunctionDef a col_offset name args body decorator_list returns)
  = (options <- collect_options decorator_list [] ;;
     match returns with
     | ast.None_ =>
         params <- parse_args (inl args) ;;
         text <- parse_body body ;;
         Ok (Some (space col_offset ++ "def " ++ name ++ "(" ++ params ++ ") "
                     ++ join ", " options ++ ":" ++ nl ++ text ++ nl))
     | _ =>
         type <- attr_id returns ;;
         params <- parse_args (inl args) ;;
         text <- parse_body body ;;
         Ok (Some (space col_offset ++ "cdef " ++ type ++ " " ++ name
                     ++ "(" ++ params ++ ") " ++ join ", " options ++ ":" ++ nl
                     ++ text ++ nl))
     end).
Proof. reflexivity. Qed.

(** C7, as the code has it.  For every function definition, the header is
    emitted exactly when the decorators give their option tokens, the
    parameters render and the body renders, the return annotation being
    absent or a name; the tokens are those of the recognized markers in the
    order of the decorators, and the header carries them joined with a comma
    and a space, after the space that follows the parameters, in the plain
    form and in the typed form alike. *)
Theorem options_joined_with_comma (a : N) (col_offset : nat) (name : string)
    (args : ast.node) (body decorator_list : list ast.node)
    (returns : ast.node) (s : string) :
  parse_stmt (ast.FunctionDef a col_offset name args body decorator_list
                returns)
  = Ok (Some s)
  <-> exists (toks : list string) (params text : string),
        option_tokens decorator_list toks
        /\ parse_args (inl args) = Ok params
        /\ parse_body body = Ok text
        /\ ((returns = ast.None_
             /\ s = space col_offset ++ "def " ++ name ++ "(" ++ params ++ ") "
                      ++ join ", " toks ++ ":" ++ nl ++ text ++ nl)
            \/ (exists (ra : N) (type : string),
                  returns = ast.Name ra type
                  /\ s = space col_offset ++ "cdef " ++ type ++ " " ++ name
                           ++ "(" ++ params ++ ") " ++ join ", " toks ++ ":"
                           ++ nl ++ text ++ nl)).
Proof.
  rewrite parse_stmt_FunctionDef. split.
  - intros H. apply bind_Ok in H as (options & Ho & H).
    apply collect_options_tokens in Ho as (toks & Htoks & ->).
    simpl app in H.
    destruct returns; simpl in H; try discriminate;
      apply bind_Ok in H as (params & Hp & H);
      apply bind_Ok in H as (text & Hb & H); injection H as <-;
      exists toks, params, text; repeat split; eauto.
  - intros (toks & params & text & Htoks & Hp & Hb & Hs).
    assert (Ho : collect_options decorator_list [] = Ok toks)
      by (apply collect_options_tokens; eauto).
    rewrite Ho. cbn [bind].
    destruct Hs as [[-> ->] | (ra & type & -> & ->)];
      cbn [bind attr_id]; rewrite Hp; cbn [bind]; rewrite Hb; reflexivity.
Qed.

Lemma options_joined_with_comma_witness :
  parse_stmt (ast.FunctionDef 1 0 "f" (ast.arguments 9 []) [ast.Pass 10 4]
                three_decorators ast.None_)
  = Ok (Some (space 0 ++ "def " ++ "f" ++ "(" ++ EmptyString ++ ") "
                ++ join ", " ["nogil"; "except E"] ++ ":" ++ nl
                ++ "    ..." ++ nl)).
Proof.
  apply (proj2 (options_joined_with_comma 1 0 "f" (ast.arguments 9 [])
                  [ast.Pass 10 4] three_decorators ast.None_ _)).
  exists ["nogil"; "except E"], EmptyString, "    ...".
  split; [| split; [reflexivity | split; [reflexivity | left; split; reflexivity]]].
  apply tokens_other; [reflexivity |].
  apply tokens_no_lock.
  apply (tokens_filtered_exception 6 7 [ast.Name 8 "E"] [] ["E"] []).
  - repeat constructor.
  - constructor.
Defined.

(** With no decorator the options are empty and the header still has the
    space that comes before them. *)
Lemma no_options_empty_segment (a : N) (col_offset : nat) (name : string)
    (args : ast.node) (body : list ast.node) (params text : string) :
  parse_args (inl args) = Ok params ->
  parse_body body = Ok text ->
  parse_stmt (ast.FunctionDef a col_offset name args body [] ast.None_)
  = Ok (Some (space col_offset ++ "def " ++ name ++ "(" ++ params ++ ") "
                ++ EmptyString ++ ":" ++ nl ++ text ++ nl)).
Proof.
  intros Hargs Hbody. rewrite parse_stmt_FunctionDef.
  cbn [collect_options bind]. rewrite Hargs. cbn [bind]. now rewrite Hbody.
Qed.

(** C7, as the specification has it, fails: with both markers the tokens
    are not separated by a space alone. *)
Lemma options_not_space_separated :
  parse_stmt marked_function
  = Ok (Some ("def f() nogil, except 'ValueError':" ++ nl ++ "    ..." ++ nl))
  /\ parse_stmt marked_function
     <> Ok (Some ("def f() " ++ join " " ["nogil"; "except 'ValueError'"]
                    ++ ":" ++ nl ++ "    ..." ++ nl)).
Proof. split; [reflexivity | discriminate]. Qed.

(** * Further properties of the code *)

(** ** [space] *)

(** X1. [space(n)] has [n] characters, all of them spaces, and the spaces of
    two offsets put end to end are the spaces of their sum. *)
Theorem space_length_and_sum (m n : nat) :
  String.length (space n) = n
  /\ leading_spaces (space n) = n
  /\ space (m + n) = space m ++ space n.
Proof.
  split; [| split].
  - induction n as [|n IH]; [reflexivity |].
    rewrite space_S. simpl. now rewrite IH.
  - induction n as [|n IH]; [reflexivity |].
    rewrite space_S. simpl. now rewrite IH.
  - induction m as [|m IH]; [reflexivity |].
    change (S m + n) with (S (m + n)).
    now rewrite !space_S, str_app_cons, IH.
Qed.

(** ** The operator table, again *)

(** X2. The table is one to one: two operator classes that it gives the same
    symbol are the same class. *)
Theorem operators_one_to_one (o1 o2 : ast.op_class) (sym : string) :
  dict_item operators (type_op o1) = Ok sym ->
  dict_item operators (type_op o2) = Ok sym ->
  o1 = o2.
Proof.
  destruct o1; vm_compute; intros [= <-]; destruct o2; vm_compute;
    intros H; first [reflexivity | discriminate H].
Qed.

Lemma operators_one_to_one_witness : ast.LtE = ast.LtE.
Proof.
  apply (operators_one_to_one ast.LtE ast.LtE "<="); reflexivity.
Defined.

(** X3. A lookup in the table raises [KeyError] for exactly two keys: the
    class of matrix multiplication and the class [list]. *)
Theorem operators_KeyError (k : pytype) :
  dict_item operators k = Err KeyError
  <-> k = type_op ast.MatMult \/ k = type_list.
Proof.
  split.
  - destruct k as [o|]; [| now right].
    destruct o; vm_compute; intros H; first [discriminate H | now left].
  - intros [-> | ->]; reflexivity.
Qed.

(** ** Bodies and statement lists *)

(** X4. The text of a body made of two parts is the text of the first
    followed by the text of the second, with nothing between them; when one
    part raises, the body raises what the first failing part raises. *)
Theorem parse_body_concatenation (l1 l2 : list ast.node) :
  parse_body (l1 ++ l2)
  = (b1 <- parse_body l1 ;; b2 <- parse_body l2 ;; Ok (b1 ++ b2)).
Proof. exact (parse_body_app l1 l2). Qed.

Lemma main_loop_app (l1 l2 : list ast.node) (generate : string) :
  main_loop (l1 ++ l2) generate
  = (g <- main_loop l1 generate ;; main_loop l2 g).
Proof.
  revert generate. induction l1 as [|node l1 IH]; intros g; simpl;
    [reflexivity |].
  destruct (parse_stmt node) as [[s|]|e]; simpl; try reflexivity.
  apply IH.
Qed.

Lemma main_loop_Ok (body : list ast.node) (out : string) :
  main_loop body EmptyString = Ok out
  <-> exists texts : list string,
        Forall2 (fun node s => parse_stmt node = Ok (Some s)) body texts
        /\ out = lines texts.
Proof.
  revert out. induction body as [|node body IH]; intros out; simpl.
  - split.
    + intros [= <-]. exists []. split; [constructor | reflexivity].
    + intros (texts & H & ->). inversion H. reflexivity.
  - split.
    + intros H. apply bind_Ok in H as ([s|] & Hs & H); [| discriminate].
      rewrite main_loop_acc in H. apply bind_Ok in H as (out' & Hout & H).
      injection H as <-. apply IH in Hout as (texts & Hall & ->).
      exists (s :: texts). split; [now constructor | reflexivity].
    + intros (texts & H & ->).
      inversion H as [|node' s body' texts' Hs Hrest]; subst.
      rewrite Hs. simpl. rewrite main_loop_acc.
      assert (Hout : main_loop body EmptyString = Ok (lines texts'))
        by (apply IH; eauto).
      rewrite Hout. reflexivity.
Qed.

(** X5. The main loop stops at the first statement that does not render to
    a text, with the exception this statement raises, or with [TypeError]
    when it renders to nothing; the statements after it play no part. *)
Theorem main_loop_first_failure (before after : list ast.node)
    (node : ast.node) (generate generate' : string) (e : exn) :
  main_loop before generate = Ok generate' ->
  parse_stmt node = Err e \/ (parse_stmt node = Ok None /\ e = TypeError) ->
  main_loop (before ++ node :: after) generate = Err e.
Proof.
  intros Hb Hn. rewrite main_loop_app, Hb. simpl.
  destruct Hn as [-> | [-> ->]]; reflexivity.
Qed.

Lemma main_loop_first_failure_witness :
  main_loop ([ast.Pass 1 0] ++ ast.Assign 2 0 [] ast.None_ :: [ast.Pass 3 0])
    EmptyString
  = Err IndexError.
Proof.
  apply (main_loop_first_failure [ast.Pass 1 0] [ast.Pass 3 0]
           (ast.Assign 2 0 [] ast.None_) EmptyString ("..." ++ nl) IndexError).
  - reflexivity.
  - left. reflexivity.
Defined.

(** ** The constructor and the files *)

Section GeneratorFiles.

Variable memory : Type.
Variable ast_parse : memory -> string -> res (list ast.node).
Variable resolve : string -> string.
Variable encode : string -> option (list byte).
Variable decode : list byte -> option string.

(** X6. A run of the constructor leaves every file other than the one that
    the path [generated.pyx] names as it was, whether the run succeeds or
    fails. *)
Theorem Generator_other_files (mem : memory) (fs : gmap string (list byte))
    (filename code : option string) (file : string) :
  file <> resolve "generated.pyx" ->
  snd (Generator ast_parse resolve encode decode mem fs filename code) !! file
  = fs !! file.
Proof.
  intros Hp. unfold Generator, write_file.
  destruct (c <- source_code resolve decode fs filename code ;;
            tree <- ast_parse mem c ;; main_loop tree EmptyString)
    as [generate|e]; [| reflexivity].
  destruct (encode generate); simpl;
    rewrite ?lookup_insert_ne by congruence; reflexivity.
Qed.

(** X7. A run that raises either raised before the write, when reading,
    parsing or rendering, and then all files are as they were; or it
    rendered a text that the encoding cannot express, and then it raises
    [UnicodeEncodeError] and leaves [generated.pyx] empty. *)
Theorem Generator_failure_writes (mem : memory)
    (fs fs' : gmap string (list byte)) (filename code : option string)
    (e : exn) :
  Generator ast_parse resolve encode decode mem fs filename code = (Err e, fs') ->
  ((c <- source_code resolve decode fs filename code ;;
    tree <- ast_parse mem c ;; main_loop tree EmptyString) = Err e
   /\ fs' = fs)
  \/ (exists text : string,
        (c <- source_code resolve decode fs filename code ;;
         tree <- ast_parse mem c ;; main_loop tree EmptyString) = Ok text
        /\ encode text = None
        /\ e = UnicodeEncodeError
        /\ fs' = <[resolve "generated.pyx" := []]> fs).
Proof.
  unfold Generator, write_file.
  destruct (c <- source_code resolve decode fs filename code ;;
            tree <- ast_parse mem c ;; main_loop tree EmptyString)
    as [generate|e'].
  - destruct (encode generate) eqn:He; intros [= <- <-].
    right. exists generate. auto.
  - intros [= <- <-]. now left.
Qed.

(** X8. When the constructor succeeds, the code it parsed is the inline
    code, or the decoded contents of the named file when there is a file
    name; every top-level statement of the parsed tree rendered to a text;
    and [generated.pyx] holds the encoding of these texts in order, each
    followed by a line end. *)
Theorem Generator_success (mem : memory) (fs fs' : gmap string (list byte))
    (filename code : option string) :
  Generator ast_parse resolve encode decode mem fs filename code = (Ok tt, fs') ->
  exists (source : string) (tree : list ast.node) (texts : list string)
         (out : list byte),
    ((filename = None /\ code = Some source)
     \/ (exists (f : string) (raw : list byte),
           filename = Some f
           /\ fs !! resolve f = Some raw
           /\ decode raw = Some source))
    /\ ast_parse mem source = Ok tree
    /\ Forall2 (fun node s => parse_stmt node = Ok (Some s)) tree texts
    /\ encode (lines texts) = Some out
    /\ fs' = <[resolve "generated.pyx" := out]> fs.
Proof.
  unfold Generator. intros H.
  destruct (source_code resolve decode fs filename code) as [source|e] eqn:Hs;
    simpl in H; [| discriminate].
  destruct (ast_parse mem source) as [tree|e] eqn:Hp; simpl in H;
    [| discriminate].
  destruct (main_loop tree EmptyString) as [text|e] eqn:Hm; [| discriminate].
  apply main_loop_Ok in Hm as (texts & Hall & ->).
  unfold write_file in H. destruct (encode (lines texts)) as [out|] eqn:He;
    [| discriminate].
  injection H as <-. rewrite insert_insert_eq.
  exists source, tree, texts, out. repeat split; auto.
  unfold source_code, read_file in Hs.
  destruct filename as [f|], code as [c|]; try discriminate.
  - right. destruct (fs !! resolve f) as [raw|] eqn:Hf; [| discriminate].
    destruct (decode raw) eqn:Hd; [| discriminate]. injection Hs as ->. eauto.
  - right. destruct (fs !! resolve f) as [raw|] eqn:Hf; [| discriminate].
    destruct (decode raw) eqn:Hd; [| discriminate]. injection Hs as ->. eauto.
  - left. injection Hs as ->. auto.
Qed.

End GeneratorFiles.

Lemma Generator_other_files_witness :
  let fs : gmap string (list byte) :=
    {[ "in.py" := list_byte_of_string "pass" ]} in
  snd (Generator sample_parse sample_resolve ascii_encode ascii_decode 7%N fs
         (Some "in.py") None) !! "in.py"
  = fs !! "in.py".
Proof.
  intros fs.
  apply (Generator_other_files N sample_parse sample_resolve ascii_encode
           ascii_decode 7%N fs (Some "in.py") None "in.py").
  discriminate.
Defined.

Lemma Generator_failure_writes_witness :
  let fs : gmap string (list byte) :=
    {[ "generated.pyx" := list_byte_of_string "old" ]} in
  ((c <- source_code sample_resolve ascii_decode fs None (Some "x = ") ;;
    tree <- sample_parse 7%N c ;; main_loop tree EmptyString) = Err SyntaxError
   /\ fs = fs)
  \/ (exists text : string,
        (c <- source_code sample_resolve ascii_decode fs None (Some "x = ") ;;
         tree <- sample_parse 7%N c ;; main_loop tree EmptyString) = Ok text
        /\ ascii_encode text = None
        /\ SyntaxError = UnicodeEncodeError
        /\ fs = <[sample_resolve "generated.pyx" := []]> fs).
Proof.
  intros fs.
  apply (Generator_failure_writes N sample_parse sample_resolve ascii_encode
           ascii_decode 7%N fs fs None (Some "x = ") SyntaxError).
  reflexivity.
Defined.

Lemma Generator_success_witness :
  exists (source : string) (tree : list ast.node) (texts : list string)
         (out : list byte),
    (((None : option string) = None /\ Some "pass" = Some source)
     \/ (exists (f : string) (raw : list byte),
           None = Some f
           /\ (∅ : gmap string (list byte)) !! sample_resolve f = Some raw
           /\ ascii_decode raw = Some source))
    /\ sample_parse 7%N source = Ok tree
    /\ Forall2 (fun node s => parse_stmt node = Ok (Some s)) tree texts
    /\ ascii_encode (lines texts) = Some out
    /\ (<["generated.pyx" := list_byte_of_string ("..." ++ nl)]> ∅
         : gmap string (list byte))
       = <[sample_resolve "generated.pyx" := out]> ∅.
Proof.
  apply (Generator_success N sample_parse sample_resolve ascii_encode
           ascii_decode 7%N ∅
           (<["generated.pyx" := list_byte_of_string ("..." ++ nl)]> ∅)
           None (Some "pass")).
  reflexivity.
Defined.

(** ** Statements that render to nothing *)

(** X10. [parse_stmt] returns nothing for exactly the nodes of a class
    without a case and the [raise] statements of something other than a name
    or a call (a bare [raise] among them); every other statement renders to
    a text or raises. *)
Theorem dropped_statements (stmt : ast.node) :
  parse_stmt stmt = Ok None <-> no_case stmt = true.
Proof.
  split.
  - intros H.
    destruct stmt; simpl in H |- *; try reflexivity;
      try (invert_binds H; discriminate H).
    + (* ImportFrom *) case_head H; invert_binds H; discriminate H.
    + (* Raise *) case_head H; try reflexivity; invert_binds H; discriminate H.
    + (* FunctionDef *)
      invert_binds H. case_head H; invert_binds H; discriminate H.
  - intros H. destruct stmt; simpl in H; try discriminate H; try reflexivity.
    match goal with
    | H : match ?e with _ => _ end = true |- _ =>
        destruct e; try discriminate H; reflexivity
    end.
Qed.

(** ** Binary operations *)

Lemma dict_item_operators_Ok (op : ast.op_class) (sym : string) :
  dict_item operators (type_op op) = Ok sym
  <-> In op operator_set /\ sym = documented_symbol op.
Proof.
  split.
  - destruct op; vm_compute; intros H; try discriminate H;
      injection H as <-; (split; [tauto | reflexivity]).
  - intros [Hin ->]. now apply operators_total.
Qed.

(** X12. A binary operation renders exactly when its two operands render
    as atoms and its operator is in the operator set; the text is then the
    left operand, the symbol and the right operand, separated by single
    spaces, without parentheses. *)
Theorem parse_expr_BinOp (a : N) (left_ right_ : ast.node) (op : ast.op_class)
    (s : string) :
  parse_expr (ast.BinOp a left_ op right_) = Ok s
  <-> exists l r : string,
        parse_atom left_ = Ok l
        /\ In op operator_set
        /\ parse_atom right_ = Ok r
        /\ s = l ++ " " ++ documented_symbol op ++ " " ++ r.
Proof.
  change (parse_expr (ast.BinOp a left_ op right_))
    with (l <- parse_atom left_ ;;
          o <- dict_item operators (type_op op) ;;
          r <- parse_atom right_ ;;
          Ok (l ++ " " ++ o ++ " " ++ r)).
  split.
  - intros H. apply bind_Ok in H as (l & Hl & H).
    apply bind_Ok in H as (o & Ho & H). apply bind_Ok in H as (r & Hr & H).
    injection H as <-. apply dict_item_operators_Ok in Ho as [Hin ->].
    exists l, r. auto.
  - intros (l & r & Hl & Hin & Hr & ->).
    rewrite Hl. simpl. rewrite (operators_total op Hin). simpl.
    now rewrite Hr.
Qed.

(** ** Parameters *)

Lemma parse_arg_simple (x : ast.node) :
  parse_arg x
  = if is_simple_param x then Ok (param_text x) else Err AttributeError.
Proof.
  destruct x; try reflexivity.
  match goal with |- parse_arg (ast.arg _ _ ?ann) = _ => destruct ann end;
    reflexivity.
Qed.

Lemma mapM_parse_arg (args : list ast.node) :
  mapM parse_arg args
  = if forallb is_simple_param args then Ok (map param_text args)
    else Err AttributeError.
Proof.
  induction args as [|x args IH]; simpl; [reflexivity |].
  rewrite parse_arg_simple.
  destruct (is_simple_param x); simpl; [| reflexivity].
  rewrite IH. now destruct (forallb is_simple_param args).
Qed.

(** X13. The parameters of a function definition render when each of them
    has no annotation or a name as annotation, as the texts [type name] or
    [name] joined with a comma and a space; as soon as one parameter has
    another annotation (a subscript, an attribute, a constant), rendering
    the parameters raises [AttributeError]. *)
Theorem parse_args_parameters (a : N) (args : list ast.node) :
  (forallb is_simple_param args = true ->
   parse_args (inl (ast.arguments a args))
   = Ok (join ", " (map param_text args)))
  /\ (forallb is_simple_param args = false ->
      parse_args (inl (ast.arguments a args)) = Err AttributeError).
Proof.
  unfold parse_args, parse_args_of.
  split; intros H; rewrite mapM_parse_arg, H; reflexivity.
Qed.

Lemma parse_args_parameters_witness :
  parse_args
    (inl (ast.arguments 1
            [ast.arg 2 "x" (ast.Name 3 "int"); ast.arg 4 "y" ast.None_]))
  = Ok "int x, y"
  /\ parse_args
       (inl (ast.arguments 1
               [ast.arg 2 "x" (ast.Other 3 "Subscript"
                                 (Some (ast.Name 4 "List")))]))
     = Err AttributeError.
Proof.
  split.
  - apply (parse_args_parameters 1
             [ast.arg 2 "x" (ast.Name 3 "int"); ast.arg 4 "y" ast.None_]).
    reflexivity.
  - apply (parse_args_parameters 1
             [ast.arg 2 "x" (ast.Other 3 "Subscript"
                               (Some (ast.Name 4 "List")))]).
    reflexivity.
Defined.

(** ** Imports *)

(** X14. An [import] statement never shows the names it imports: each
    alias is written as the representation of its node, whatever its name. *)
Theorem parse_stmt_Import (a : N) (col_offset : nat)
    (names : list (N * string)) :
  parse_stmt (ast.Import a col_offset (map alias_of names))
  = Ok (Some (space col_offset ++ "import "
                ++ join ", "
                     (map (fun p => "<ast.alias object at 0x" ++ hex (fst p)
                                      ++ ">") names))).
Proof.
  change (parse_stmt (ast.Import a col_offset (map alias_of names)))
    with (n <- (l <- mapM parse_atom (map alias_of names) ;;
                Ok (join ", " l)) ;;
          Ok (Some (space col_offset ++ "import " ++ n))).
  assert (H : mapM parse_atom (map alias_of names)
              = Ok (map (fun p => "<ast.alias object at 0x" ++ hex (fst p)
                                    ++ ">") names)).
  { induction names as [|p names IH]; simpl; [reflexivity |].
    now rewrite IH. }
  now rewrite H.
Qed.

(** X15. A [from ... import] statement of aliases always renders: the
    word [from], as many dots as the level, the module when there is one,
    the word [import], the imported names joined with a comma and a space,
    and a line end. *)
Theorem parse_stmt_ImportFrom (a : N) (col_offset level : nat)
    (module : option string) (names : list (N * string)) :
  parse_stmt (ast.ImportFrom a col_offset module (map alias_of names) level)
  = Ok (Some (space col_offset ++ "from " ++ str_mul "." level
                ++ match module with Some m => m | None => EmptyString end
                ++ " import " ++ join ", " (map snd names) ++ nl))
  /\ String.length (str_mul "." level) = level.
Proof.
  assert (H : mapM attr_name (map alias_of names) = Ok (map snd names)).
  { induction names as [|p names IH]; simpl; [reflexivity |].
    now rewrite IH. }
  split.
  - destruct module as [m|]; simpl; rewrite H; reflexivity.
  - induction level as [|level IH]; [reflexivity |].
    change (str_mul "." (S level)) with (String "." (str_mul "." level)).
    simpl. now rewrite IH.
Qed.

(** ** Decorators *)

(** X16. A decorator that calls a name other than [no_gil] and
    [except_error] changes nothing: the function definition renders as it
    does without this decorator, and the arguments of the decorator are not
    even rendered. *)
Theorem unknown_decorator_ignored (a : N) (col_offset : nat) (name : string)
    (args : ast.node) (body before after : list ast.node)
    (returns d : ast.node) :
  is_unknown_decorator d = true ->
  parse_stmt (ast.FunctionDef a col_offset name args body
                (before ++ d :: after) returns)
  = parse_stmt (ast.FunctionDef a col_offset name args body
                  (before ++ after) returns).
Proof.
  intros Hd. rewrite !parse_stmt_FunctionDef, !collect_options_app.
  destruct (collect_options before []) as [o|e]; simpl; [| reflexivity].
  now rewrite (decorator_option_unknown d Hd).
Qed.

Lemma unknown_decorator_ignored_witness :
  parse_stmt (ast.FunctionDef 1 0 "f" (ast.arguments 2 []) [ast.Pass 3 4]
                ([] ++ ast.Call 4 (ast.Name 5 "cache")
                         [ast.Compare 6 ast.None_ [] []] :: [])
                ast.None_)
  = parse_stmt (ast.FunctionDef 1 0 "f" (ast.arguments 2 []) [ast.Pass 3 4]
                  ([] ++ []) ast.None_).
Proof.
  apply (unknown_decorator_ignored 1 0 "f" (ast.arguments 2 [])
           [ast.Pass 3 4] [] [] ast.None_
           (ast.Call 4 (ast.Name 5 "cache") [ast.Compare 6 ast.None_ [] []])).
  reflexivity.
Defined.

(** X17. A decorator that is not a call of a name (a bare name such as
    [staticmethod], or a call of an attribute), coming after decorators that
    go through, makes the function definition raise [AttributeError]. *)
Theorem decorator_without_call (a : N) (col_offset : nat) (name : string)
    (args : ast.node) (body before after : list ast.node)
    (returns d : ast.node) (options : list string) :
  collect_options before [] = Ok options ->
  is_call_of_name d = false ->
  parse_stmt (ast.FunctionDef a col_offset name args body
                (before ++ d :: after) returns)
  = Err AttributeError.
Proof.
  intros Hb Hd. rewrite parse_stmt_FunctionDef, collect_options_app, Hb.
  simpl. now rewrite (decorator_option_not_call d Hd).
Qed.

Lemma decorator_without_call_witness :
  parse_stmt (ast.FunctionDef 1 0 "f" (ast.arguments 2 []) [ast.Pass 3 4]
                ([ast.Call 4 (ast.Name 5 "no_gil") []]
                   ++ ast.Name 6 "staticmethod" :: [])
                ast.None_)
  = Err AttributeError.
Proof.
  apply (decorator_without_call 1 0 "f" (ast.arguments 2 []) [ast.Pass 3 4]
           [ast.Call 4 (ast.Name 5 "no_gil") []] [] ast.None_
           (ast.Name 6 "staticmethod") ["nogil"]); reflexivity.
Defined.

(** ** Indentation and headers *)

(** X18. Every statement other than an expression statement that renders
    to a text begins with exactly as many spaces as its column offset,
    provided the name an assignment begins with is an identifier. *)
Theorem indentation_of_statements (stmt : ast.node) (s : string) :
  is_Expr stmt = false ->
  target_is_identifier stmt = true ->
  parse_stmt stmt = Ok (Some s) ->
  attr_col_offset stmt = Some (leading_spaces s).
Proof. apply indentation_law. Qed.

Lemma indentation_of_statements_witness :
  attr_col_offset
    (ast.AnnAssign 1 8 (ast.Name 2 "n") (ast.Name 3 "int")
       (ast.Constant 4 (ast.c_int 0)))
  = Some (leading_spaces "        n: int = 0").
Proof.
  apply (indentation_of_statements
           (ast.AnnAssign 1 8 (ast.Name 2 "n") (ast.Name 3 "int")
              (ast.Constant 4 (ast.c_int 0)))
           "        n: int = 0"); reflexivity.
Defined.

(** X19. A function definition renders only when its return annotation is
    absent or is a name: without annotation the text begins with the indent
    and [def name(], with a name as annotation it begins with the indent and
    [cdef type name(]; with any other annotation ([-> None], a subscript)
    nothing is rendered. *)
Theorem function_definition_headers (a : N) (col_offset : nat) (name : string)
    (args : ast.node) (body decorator_list : list ast.node)
    (returns : ast.node) (r : option string) :
  parse_stmt (ast.FunctionDef a col_offset name args body decorator_list returns)
  = Ok r ->
  (returns = ast.None_
   /\ exists rest, r = Some (space col_offset ++ "def " ++ name ++ "(" ++ rest))
  \/ (exists ra t rest,
        returns = ast.Name ra t
        /\ r = Some (space col_offset ++ "cdef " ++ t ++ " " ++ name
                       ++ "(" ++ rest)).
Proof. apply function_header_form. Qed.

Lemma function_definition_headers_witness :
  (ast.None_ = ast.None_
   /\ exists rest,
        Some ("def f() nogil, except 'ValueError':" ++ nl ++ "    ..." ++ nl)
        = Some (space 0 ++ "def " ++ "f" ++ "(" ++ rest))
  \/ (exists ra t rest,
        ast.None_ = ast.Name ra t
        /\ Some ("def f() nogil, except 'ValueError':" ++ nl ++ "    ..." ++ nl)
           = Some (space 0 ++ "cdef " ++ t ++ " " ++ "f" ++ "(" ++ rest)).
Proof.
  apply (function_definition_headers 1 0 "f" (ast.arguments 7 [])
           [ast.Pass 8 4] both_markers ast.None_).
  reflexivity.
Defined.

(** ** The decorators at run time *)

Section Decorators.

Variables A S V : Type.
Variable py_None : V.

Implicit Types (func : callable A S V) (args : A) (s : S) (e : exception).

(** X20. The function wrapped by [except_error(err_name)] raises [e]
    exactly when the function itself raises [e] and [e] is not an exception
    deriving from [Exception] whose class has the name [err_name]: an
    exception of that name that does not derive from [Exception] still
    comes out. *)
Theorem except_error_raises (err_name : string) func args s e (s' : S) :
  except_error py_None err_name func args s = (Raises e, s')
  <-> func args s = (Raises e, s')
      /\ ~ (is_Exception e = true /\ exception_class e = err_name).
Proof.
  unfold except_error. destruct (func args s) as [[v|e0] s0]; split.
  - discriminate.
  - intros [H _]. discriminate H.
  - destruct (is_Exception e0) eqn:HE.
    + destruct (String.eqb_spec (exception_class e0) err_name) as [Hn|Hn];
        simpl; [discriminate |].
      intros [= <- <-]. split; [reflexivity |]. intros [_ Hc]. contradiction.
    + intros [= <- <-]. split; [reflexivity |]. intros [Ht _]. congruence.
  - intros [[= -> ->] Hnot].
    destruct (is_Exception e) eqn:HE; [| reflexivity].
    destruct (String.eqb_spec (exception_class e) err_name) as [Hn|Hn];
      simpl; [| reflexivity].
    exfalso. apply Hnot. split; [reflexivity | exact Hn].
Qed.

(** X21. The wrapper keeps the effects of the function: the state after
    the wrapped call is the state the function left, also when its exception
    is let go; and in that case the wrapped call returns [None]. *)
Theorem except_error_state (err_name : string) func args s :
  snd (except_error py_None err_name func args s) = snd (func args s)
  /\ forall e (s' : S),
       func args s = (Raises e, s') ->
       is_Exception e = true ->
       exception_class e = err_name ->
       except_error py_None err_name func args s = (Returns py_None, s').
Proof.
  unfold except_error. split.
  - destruct (func args s) as [[v|e] s']; [reflexivity |].
    destruct (is_Exception e); [| reflexivity].
    now destruct (negb (String.eqb (exception_class e) err_name)).
  - intros e s' -> -> <-. now rewrite String.eqb_refl.
Qed.

(** X22. Wrapping twice with the same name is wrapping once. *)
Theorem except_error_idempotent (err_name : string) func args s :
  except_error py_None err_name (except_error py_None err_name func) args s
  = except_error py_None err_name func args s.
Proof.
  unfold except_error. destruct (func args s) as [[v|e] s']; [reflexivity |].
  destruct (is_Exception e) eqn:HE; [| now rewrite HE].
  destruct (negb (String.eqb (exception_class e) err_name)) eqn:Hn;
    [| reflexivity].
  now rewrite HE, Hn.
Qed.

(** X23. Two [except_error] wrappers give the same function in either
    order, and [no_gil] can be put anywhere among them without effect. *)
Theorem except_error_commutes (name1 name2 : string) func args s :
  except_error py_None name1 (except_error py_None name2 func) args s
  = except_error py_None name2 (except_error py_None name1 func) args s
  /\ except_error py_None name1 (no_gil func) args s
     = no_gil (except_error py_None name1 func) args s.
Proof.
  split; [| reflexivity].
  unfold except_error. destruct (func args s) as [[v|e] s']; [reflexivity |].
  destruct (is_Exception e) eqn:HE; [| now rewrite !HE].
  destruct (negb (String.eqb (exception_class e) name1)) eqn:H1,
           (negb (String.eqb (exception_class e) name2)) eqn:H2;
    rewrite ?HE, ?H1, ?H2; reflexivity.
Qed.

End Decorators.

Lemma except_error_state_witness :
  let func : callable unit nat (option nat) :=
    fun _ s => (Raises {| exception_class := "ValueError";
                          is_Exception := true |}, S s) in
  except_error None "ValueError" func tt 0 = (Returns None, 1).
Proof.
  intros func.
  apply (proj2 (except_error_state unit nat (option nat) None "ValueError"
                  func tt 0)
           {| exception_class := "ValueError"; is_Exception := true |} 1);
    reflexivity.
Defined.

(** ** Calls *)

(** X24. A call of a name renders exactly when each of its arguments
    renders as an atom; the text is the name, then the texts of the
    arguments joined with a comma and a space, between parentheses. *)
Theorem parse_expr_Call_Name (a a' : N) (f : string) (args : list ast.node)
    (s : string) :
  parse_expr (ast.Call a (ast.Name a' f) args) = Ok s
  <-> exists texts : list string,
        Forall2 (fun x t => parse_atom x = Ok t) args texts
        /\ s = f ++ "(" ++ join ", " texts ++ ")".
Proof.
  change (parse_expr (ast.Call a (ast.Name a' f) args))
    with (r <- (l <- mapM parse_atom args ;; Ok (join ", " l)) ;;
          Ok (f ++ "(" ++ r ++ ")")).
  split.
  - intros H. apply bind_Ok in H as (r & Hr & H). injection H as <-.
    apply bind_Ok in Hr as (texts & Ht & Hr). injection Hr as <-.
    exists texts. split; [now apply mapM_Ok | reflexivity].
  - intros (texts & Hall & ->). apply mapM_Ok in Hall.
    now rewrite Hall.
Qed.
